(** * LoD reset kernel and memory entry points of Paddle

    A shallow embedding of
      - paddle/fluid/operators/lod_reset_op.h
          (LoDResetKernel::Compute, LoDResetGradKernel::Compute)
      - paddle/phi/core/memory/malloc.cc
          (the paddle::memory entry points over AllocatorFacade)
    followed by the properties the specification states about them. *)

From stdpp Require Import base option list numbers strings countable gmap.

Local Open Scope Z_scope.

(** ** Effects: mutable state, PADDLE_ENFORCE exceptions, undefined behaviour *)

Module Eff.

  (** The error categories of common::errors that the code and the
      specification name. *)
Inductive ErrorCode := InvalidArgument | OutOfMemory | InvalidPlace.

  (** What a failed PADDLE_ENFORCE_* throws: an error category and the
      format string of its message (arguments not substituted). *)
Record EnforceNotMet := { code : ErrorCode; message : string }.

  (** How a call ends: it returns, it throws, or it runs into behaviour the
      C++ standard leaves undefined (back() of an empty vector, operator[]
      past the end). *)
Inductive Outcome (A : Type) :=
  | Returned (a : A)
  | Threw (e : EnforceNotMet)
  | Undefined.
Arguments Returned {A} a.
Arguments Threw {A} e.
Arguments Undefined {A}.

  (** A computation over a mutable state [St]; the state it leaves behind is
      kept also when it throws, as the writes before a throw are not undone. *)
Definition M (St A : Type) : Type := St -> Outcome A * St.

Definition ret {St A} (a : A) : M St A := fun s => (Returned a, s).

Definition bind {St A B} (c : M St A) (k : A -> M St B) : M St B :=
    fun s =>
      match c s with
      | (Returned a, s') => k a s'
      | (Threw e, s') => (Threw e, s')
      | (Undefined, s') => (Undefined, s')
      end.

Definition throw {St A} (e : EnforceNotMet) : M St A := fun s => (Threw e, s).
Definition undefined {St A} : M St A := fun s => (Undefined, s).
Definition modify {St} (f : St -> St) : M St unit := fun s => (Returned tt, f s).

  (** PADDLE_ENFORCE_EQ / _GT / _GE on integers. *)
Definition PADDLE_ENFORCE_EQ {St} (a b : Z) (e : EnforceNotMet) : M St unit :=
    if a =? b then ret tt else throw e.
Definition PADDLE_ENFORCE_GT {St} (a b : Z) (e : EnforceNotMet) : M St unit :=
    if a >? b then ret tt else throw e.
Definition PADDLE_ENFORCE_GE {St} (a b : Z) (e : EnforceNotMet) : M St unit :=
    if a >=? b then ret tt else throw e.

  (** std::vector::operator[] and std::vector::back. *)
Definition vec_at {St A} (v : list A) (i : nat) : M St A :=
    match v !! i with Some x => ret x | None => undefined end.
Definition vec_back {St A} (v : list A) : M St A :=
    match last v with Some x => ret x | None => undefined end.

  (** for (size_t i = from; i < from + count; ++i) body(i) *)
Fixpoint for_ {St} (count : nat) (from : nat) (body : nat -> M St unit)
    : M St unit :=
    match count with
    | O => ret tt
    | S count' => bind (body from) (fun _ => for_ count' (S from) body)
    end.

Definition threw {A} (o : Outcome A) (c : ErrorCode) : Prop :=
    exists msg, o = Threw {| code := c; message := msg |}.

End Eff.

Import Eff.

Notation "'let!' x ':=' c 'in' k" := (bind c (fun x => k))
  (at level 10, x name, c at level 100, k at level 200).
Notation "'do!' c 'in' k" := (bind c (fun _ => k))
  (at level 10, c at level 100, k at level 200).

(** ** Places *)

(** Modelled from the spec: phi::Place is declared in
    paddle/phi/common/place.h, which is not among the files modelled here.  The
    specification gives it as a tagged identifier of a memory domain: host,
    an accelerator device index, pinned host, or a custom device. *)
Inductive Place :=
| Host
| Accelerator (deviceIndex : N)
| PinnedHost
| CustomDevice (kind : string) (index : N).

Inductive AllocationType := CPU | GPU | GPUPINNED | CUSTOM.

Definition GetType (p : Place) : AllocationType :=
  match p with
  | Host => CPU
  | Accelerator _ => GPU
  | PinnedHost => GPUPINNED
  | CustomDevice _ _ => CUSTOM
  end.

Definition CPUPlace : Place := Host.

#[global] Instance AllocationType_eq_dec : EqDecision AllocationType.
Proof. solve_decision. Defined.

#[global] Instance Place_eq_dec : EqDecision Place.
Proof. solve_decision. Defined.

#[global] Instance Place_countable : Countable Place.
Proof.
  refine (inj_countable'
    (fun p => match p with
              | Host => inl (inl tt)
              | Accelerator i => inl (inr i)
              | PinnedHost => inr (inl tt)
              | CustomDevice k i => inr (inr (k, i))
              end)
    (fun x => match x with
              | inl (inl _) => Host
              | inl (inr i) => Accelerator i
              | inr (inl _) => PinnedHost
              | inr (inr (k, i)) => CustomDevice k i
              end) _).
  intros []; reflexivity.
Defined.

(** ** Integer conversions *)

(** static_cast<int64_t> of an int: sign extension keeps the value. *)
Definition int_to_int64 (a : Z) : Z := a.

(** static_cast<int64_t> of a size_t: the value modulo 2^64, read as signed. *)
Definition size_t_to_int64 (a : Z) : Z := (a + 2 ^ 63) `mod` 2 ^ 64 - 2 ^ 63.

(** static_cast<size_t> of an int: the value modulo 2^64. *)
Definition int_to_size_t (a : Z) : Z := a `mod` 2 ^ 64.

Definition int_range (a : Z) : Prop := - 2 ^ 31 <= a < 2 ^ 31.

(** ** Dense tensors *)

(** A level-of-detail index: a vector of levels, each a vector of size_t
    offsets (phi::LegacyLoD). *)
Definition LegacyLoD : Type := list (list Z).

(** The shape of a tensor of rank at least one: dims()[0] is the extent of
    the first dimension, the one the offsets of a LoD index into. *)
Record DDim := { dim0 : Z; dims_rest : list Z }.

(** phi::DenseTensor as the kernels use it: the buffer seen through
    data<T>(), the shape, the LoD annotation and the place.  numel() is the
    number of elements of the buffer. *)
Record DenseTensor (T : Type) := {
  data : list T;
  dims : DDim;
  lod : LegacyLoD;
  place : Place;
}.
Arguments data {T} _.
Arguments dims {T} _.
Arguments lod {T} _.
Arguments place {T} _.

Definition numel {T} (t : DenseTensor T) : nat := length (data t).

Definition set_lod {T} (l : LegacyLoD) (t : DenseTensor T) : DenseTensor T :=
  {| data := data t; dims := dims t; lod := l; place := place t |}.

(** out->mutable_lod()->push_back(level) *)
Definition mutable_lod_push_back {T} (level : list Z) (t : DenseTensor T)
  : DenseTensor T :=
  set_lod (lod t ++ [level]) t.

(** Modelled from the spec: framework::TensorCopy and TensorCopySync live
    in paddle/fluid/framework/tensor_util.cc, which is not among the files
    modelled here.  The specification describes the call as a byte-for-byte copy of
    the source buffer: the destination takes the source's buffer and shape
    and is placed at the requested place; its LoD annotation is not part of
    the buffer and is left as it was. *)
Definition TensorCopy {T} (src : DenseTensor T) (dst_place : Place)
    (dst : DenseTensor T) : DenseTensor T :=
  {| data := data src; dims := dims src; lod := lod dst; place := dst_place |}.

Definition TensorCopySync {T} (src : DenseTensor T) (dst_place : Place)
    (dst : DenseTensor T) : DenseTensor T :=
  TensorCopy src dst_place dst.

(** A default-constructed phi::DenseTensor (the local lod_cpu). *)
Definition empty_tensor {T} : DenseTensor T :=
  {| data := []; dims := {| dim0 := 0; dims_rest := [] |}; lod := [];
     place := CPUPlace |}.

(** ** paddle/fluid/operators/lod_reset_op.h *)

Module LoDResetKernel.

  (** What Compute reads from the framework::ExecutionContext: Input("X"),
      the optional Input("Y") seen through data<int>(), and the attributes
      "append" and "target_lod".  Output("Out") is the state Compute runs on. *)
Record ExecutionContext (T : Type) := {
    Input_X : DenseTensor T;
    Input_Y : option (DenseTensor Z);
    Attr_append : bool;
    Attr_target_lod : list Z;
  }.
Arguments Input_X {T} _.
Arguments Input_Y {T} _.
Arguments Attr_append {T} _.
Arguments Attr_target_lod {T} _.

Definition msg_y_last_level : string :=
    "The last value of Input(Y)'s last level LoD should be equal to the first dimension of Input(X). But received the last value of Input(Y)'s last level LoD is %d, the first dimension of Input(X) is %d.".
Definition msg_target_size : string :=
    "The size of target LoD should be greater than 1. But received the size of target LoD is %d.".
Definition msg_target_start : string :=
    "Target LoD should be a vector starting from 0. But target LoD starts from %d.".
Definition msg_target_last : string :=
    "The last value of 'Target LoD''s last level LoD should be equal to the first dimension of Input(X). But received the 'Target LoD' is %s, Input(X)'s shape is %s.".
Definition msg_target_ascending : string :=
    "'Target LoD' should be an ascending vector. But received the Target LoD is %s.".

Definition invalid_argument (msg : string) : EnforceNotMet :=
    {| code := InvalidArgument; message := msg |}.

Section Kernel.
Context {T : Type}.

    (** Lines 52-65: Input(Y) carries a LoD. *)
Definition adopt_y_lod (in_ : DenseTensor T) (lod_t : DenseTensor Z)
      : M (DenseTensor T) unit :=
      let y_lod := lod lod_t in
      let! last_level := vec_at y_lod (length y_lod - 1) in
      let! b := vec_back last_level in
      do! PADDLE_ENFORCE_EQ (size_t_to_int64 b) (dim0 (dims in_))
            (invalid_argument msg_y_last_level) in
      modify (set_lod y_lod).

    (** Lines 67-73: Input(Y) has no LoD, its buffer holds the offsets; a
        buffer on the GPU is copied to the host first. *)
Definition level0_of_y (lod_t : DenseTensor Z) : list Z :=
      let lod_cpu := empty_tensor in
      let lod_ :=
        if decide (GetType (place lod_t) = GPU)
        then data (TensorCopySync lod_t CPUPlace lod_cpu)
        else data lod_t in
      take (numel lod_t) lod_.

    (** Lines 101-108. *)
Definition check_ascending (level0 : list Z) : M (DenseTensor T) unit :=
      for_ (length level0 - 1) 0 (fun i =>
        let! next := vec_at level0 (i + 1) in
        let! cur := vec_at level0 i in
        PADDLE_ENFORCE_GE next cur (invalid_argument msg_target_ascending)).

    (** Lines 79-122: validation of the flat offset list and the update of
        the LoD of Out. *)
Definition reset_with_level0 (in_ : DenseTensor T) (append : bool)
        (level0 : list Z) : M (DenseTensor T) unit :=
      do! PADDLE_ENFORCE_GT (Z.of_nat (length level0)) 1
            (invalid_argument msg_target_size) in
      let! first := vec_at level0 0 in
      do! PADDLE_ENFORCE_EQ (int_to_int64 first) 0
            (invalid_argument msg_target_start) in
      let! back := vec_back level0 in
      do! PADDLE_ENFORCE_EQ (int_to_int64 back) (dim0 (dims in_))
            (invalid_argument msg_target_last) in
      do! check_ascending level0 in
      let ulevel0 := map int_to_size_t level0 in
      if append
      then modify (mutable_lod_push_back ulevel0)
      else
        let target_lod := [] ++ [ulevel0] in
        modify (set_lod target_lod).

    (** LoDResetKernel<T, DeviceContext>::Compute, run on the tensor behind
        Output("Out"). *)
Definition Compute (ctx : ExecutionContext T) : M (DenseTensor T) unit :=
      let in_ := Input_X ctx in
      let append := Attr_append ctx in
      do! modify (TensorCopy in_ (place in_)) in
      match Input_Y ctx with
      | Some lod_t =>
          if Z.of_nat (length (lod lod_t)) >? 0
          then adopt_y_lod in_ lod_t
          else reset_with_level0 in_ append (level0_of_y lod_t)
      | None => reset_with_level0 in_ append (Attr_target_lod ctx)
      end.

    (** The flat offset list Compute validates, when it takes that path. *)
Definition flat_offsets (ctx : ExecutionContext T) : option (list Z) :=
      match Input_Y ctx with
      | Some lod_t => if Z.of_nat (length (lod lod_t)) >? 0 then None
                      else Some (level0_of_y lod_t)
      | None => Some (Attr_target_lod ctx)
      end.

End Kernel.

End LoDResetKernel.

Module LoDResetGradKernel.

  (** Input(GradVarName("Out")); Output(GradVarName("X")) is the state. *)
Record ExecutionContext (T : Type) := { Input_d_out : DenseTensor T }.
Arguments Input_d_out {T} _.

  (** LoDResetGradKernel<T, DeviceContext>::Compute *)
Definition Compute {T} (ctx : ExecutionContext T) : M (DenseTensor T) unit :=
    let d_out := Input_d_out ctx in
    modify (TensorCopy d_out (place d_out)).

End LoDResetGradKernel.

(** ** paddle/phi/core/memory/malloc.cc *)

Module memory.

  (** Modelled from the spec: phi::Stream (paddle/phi/core/stream.h) is not
      among the files modelled here.  The specification gives a stream as either the
      synchronous null stream or an ordered device queue. *)
Inductive Stream := NoStream | Ordered (deviceQueueId : N).

#[global] Instance Stream_eq_dec : EqDecision Stream.
Proof. solve_decision. Defined.

  (** The interface of allocation::AllocatorFacade that malloc.cc calls.
      [World] is the process state the singleton lives in; the handle types
      (std::shared_ptr<Allocation>, AllocationPtr, gpuStream_t,
      phi::stream::stream_t, raw pointers) are those of the facade.  The methods
      taking a gpuStream_t exist in builds with PADDLE_WITH_CUDA or
      PADDLE_WITH_HIP, the one taking a stream_t with
      PADDLE_WITH_CUSTOM_DEVICE. *)
Class AllocatorFacade
      (World SharedAllocation AllocationPtr gpuStream_t stream_t VoidPtr : Type) := {
    facade_AllocShared : Place -> N -> M World SharedAllocation;
    facade_Alloc : Place -> N -> M World AllocationPtr;
    facade_Release : Place -> M World N;
    facade_AllocShared_stream : Place -> N -> Stream -> M World SharedAllocation;
    facade_Alloc_stream : Place -> N -> Stream -> M World AllocationPtr;
    facade_InSameStream : SharedAllocation -> Stream -> M World bool;
    facade_GetBasePtr : SharedAllocation -> M World VoidPtr;
    facade_Release_gpu : Place -> gpuStream_t -> M World N;
    facade_RecordStream_gpu : SharedAllocation -> gpuStream_t -> M World bool;
    facade_EraseStream : SharedAllocation -> gpuStream_t -> M World unit;
    facade_GetStream : SharedAllocation -> M World gpuStream_t;
    facade_RecordStream_custom : SharedAllocation -> stream_t -> M World bool;
  }.

Section EntryPoints.
Context {World SharedAllocation AllocationPtr gpuStream_t stream_t VoidPtr : Type}.
    (** allocation::AllocatorFacade::Instance() *)
Context (Instance :
      AllocatorFacade World SharedAllocation AllocationPtr gpuStream_t stream_t VoidPtr).

Definition AllocShared (place : Place) (size : N) : M World SharedAllocation :=
      facade_AllocShared place size.

Definition Alloc (place : Place) (size : N) : M World AllocationPtr :=
      facade_Alloc place size.

Definition Release (place : Place) : M World N :=
      facade_Release place.

Definition AllocShared_stream (place : Place) (size : N) (stream : Stream)
      : M World SharedAllocation :=
      facade_AllocShared_stream place size stream.

Definition Alloc_stream (place : Place) (size : N) (stream : Stream)
      : M World AllocationPtr :=
      facade_Alloc_stream place size stream.

Definition InSameStream (allocation : SharedAllocation) (stream : Stream)
      : M World bool :=
      facade_InSameStream allocation stream.

Definition GetBasePtr (allocation : SharedAllocation) : M World VoidPtr :=
      facade_GetBasePtr allocation.

    (** #if defined(PADDLE_WITH_CUDA) || defined(PADDLE_WITH_HIP) *)
Definition Release_gpu (place : Place) (stream : gpuStream_t) : M World N :=
      facade_Release_gpu place stream.

Definition RecordStream_gpu (allocation : SharedAllocation)
        (stream : gpuStream_t) : M World bool :=
      facade_RecordStream_gpu allocation stream.

Definition EraseStream (allocation : SharedAllocation)
        (stream : gpuStream_t) : M World unit :=
      facade_EraseStream allocation stream.

Definition GetStream (allocation : SharedAllocation) : M World gpuStream_t :=
      facade_GetStream allocation.

    (** #ifdef PADDLE_WITH_CUSTOM_DEVICE *)
Definition RecordStream_custom (allocation : SharedAllocation)
        (stream : stream_t) : M World bool :=
      facade_RecordStream_custom allocation stream.

End EntryPoints.

End memory.

(** ** The allocator behind the facade *)

Module allocation.
Import memory.

Local Open Scope N_scope.

  (** Modelled from the spec: Allocation (paddle/phi/core/allocator.h) is
      not among the files modelled here.  The specification gives it as an owned memory
      region: base pointer, size, owning place, and the stream it was created
      on; the streams recorded against it are kept by the stream-safety
      tracker. *)
Record Allocation := {
    basePointer : N;
    sizeBytes : N;
    alloc_place : Place;
    alloc_stream : Stream;
  }.

  (** A handle is null or points to an allocation. *)
Definition Handle : Type := option Allocation.

  (** A region of device memory a strategy holds. *)
Record Block := { base : N; bytes : N }.

  (** Modelled from the spec: the per-place allocator strategies
      (paddle/phi/core/memory/allocation/) are not among the files modelled here.  The
      specification gives a strategy as a caching allocator: requests are
      rounded up to a bucket size ([granule]; 1 on the host, where nothing is
      rounded), freed regions are kept in a free pool and reused, what the
      pool cannot serve is taken from the device while it has memory left,
      and release() hands the free pool back to the device. *)
Record Strategy := {
    granule : N;
    pool : list Block;
    brk : N;
    device_free : N;
  }.

Definition round_up (size granule : N) : N :=
    if granule =? 0 then size else (size + granule - 1) / granule * granule.

  (** First block of the pool that holds [need] bytes, and the pool without it. *)
Fixpoint take_block (need : N) (blocks : list Block)
    : option (Block * list Block) :=
    match blocks with
    | [] => None
    | b :: rest =>
        if need <=? bytes b then Some (b, rest)
        else match take_block need rest with
             | Some (found, rest') => Some (found, b :: rest')
             | None => None
             end
    end.

  (** Modelled from the spec: allocate(size) -> Allocation | OutOfMemory. *)
Definition allocate (size : N) (st : Strategy) : option Block * Strategy :=
    let need := round_up size (granule st) in
    match take_block need (pool st) with
    | Some (b, rest) =>
        (Some b, {| granule := granule st; pool := rest; brk := brk st;
                    device_free := device_free st |})
    | None =>
        if need <=? device_free st
        then (Some {| base := brk st; bytes := need |},
              {| granule := granule st; pool := pool st;
                 brk := brk st + need; device_free := device_free st - need |})
        else (None, st)
    end.

  (** Modelled from the spec: deallocate(Allocation) returns the region to
      the free pool. *)
Definition deallocate (b : Block) (st : Strategy) : Strategy :=
    {| granule := granule st; pool := b :: pool st; brk := brk st;
       device_free := device_free st |}.

Definition pool_bytes (blocks : list Block) : N :=
    foldr (fun b acc => bytes b + acc) 0 blocks.

  (** Modelled from the spec: release() -> bytesReclaimed walks the free pool
      and returns it to the device. *)
Definition release (st : Strategy) : N * Strategy :=
    (pool_bytes (pool st),
     {| granule := granule st; pool := []; brk := brk st;
        device_free := device_free st + pool_bytes (pool st) |}).

  (** Modelled from the spec: the retry wrapper; when allocate fails it runs
      a release() pass and retries once before surfacing OutOfMemory. *)
Definition allocate_with_retry (size : N) (st : Strategy)
    : option Block * Strategy :=
    match allocate size st with
    | (Some b, st') => (Some b, st')
    | (None, st') => allocate size (release st').2
    end.

  (** Modelled from the spec: the state of the AllocatorFacade singleton
      (allocator_facade.cc is not among the files modelled here): the registry from
      places to strategy instances, populated on the first request for a
      place with the strategy the build provides for it, and the
      stream-safety tracker, keyed by base pointer. *)
Record World := {
    provided : Place -> Strategy;
    registry : gmap Place Strategy;
    tracker : gmap N (list Stream);
  }.

Definition resolve (p : Place) (w : World) : Strategy :=
    default (provided w p) (registry w !! p).

Definition set_strategy (p : Place) (st : Strategy) (w : World) : World :=
    {| provided := provided w; registry := <[p := st]> (registry w);
       tracker := tracker w |}.

Definition set_tracker (t : gmap N (list Stream)) (w : World) : World :=
    {| provided := provided w; registry := registry w; tracker := t |}.

Definition out_of_memory : EnforceNotMet :=
    {| code := OutOfMemory; message := "Cannot allocate the requested size." |}.
Definition invalid_place : EnforceNotMet :=
    {| code := InvalidPlace; message := "The place does not support streams." |}.

Definition stream_capable (p : Place) : bool :=
    match GetType p with GPU | CUSTOM => true | _ => false end.

  (** Modelled from the spec: AllocatorFacade::Alloc(place, size) resolves
      the strategy of the place; the strategy produces the allocation or the
      request fails with OutOfMemory once the retry has failed too. *)
Definition facade_alloc_on (stream : Stream) (p : Place) (size : N)
    : M World Handle :=
    fun w =>
      match allocate_with_retry size (resolve p w) with
      | (Some b, st') =>
          (Returned (Some {| basePointer := base b; sizeBytes := bytes b;
                             alloc_place := p; alloc_stream := stream |}),
           set_strategy p st' w)
      | (None, st') => (Threw out_of_memory, set_strategy p st' w)
      end.

Definition record (a : Allocation) (s : Stream) (w : World) : World :=
    set_tracker
      (<[basePointer a := s :: default [] (tracker w !! basePointer a)]>
         (tracker w)) w.

Definition erase (a : Allocation) (s : Stream) (w : World) : World :=
    set_tracker
      (<[basePointer a :=
           filter (fun s' => s' <> s) (default [] (tracker w !! basePointer a))]>
         (tracker w)) w.

Definition facade_alloc_stream (p : Place) (size : N) (s : Stream)
    : M World Handle :=
    if stream_capable p
    then
      let! h := facade_alloc_on s p size in
      match h with
      | Some a => do! modify (record a s) in ret h
      | None => ret h
      end
    else throw invalid_place.

Definition facade_release (p : Place) : M World N :=
    fun w =>
      match registry w !! p with
      | Some st => let '(n, st') := release st in (Returned n, set_strategy p st' w)
      | None => (Returned 0, w)
      end.

Definition with_allocation {A} (h : Handle) (k : Allocation -> M World A)
    : M World A :=
    match h with Some a => k a | None => undefined end.

Definition facade_record_stream (h : Handle) (s : Stream) : M World bool :=
    with_allocation h (fun a =>
      if stream_capable (alloc_place a)
      then do! modify (record a s) in ret true
      else ret false).

  (** Modelled from the spec: the public operations of the AllocatorFacade
      as section 4.1 of the specification lists them. *)
#[global] Instance spec_facade : AllocatorFacade World Handle Handle Stream Stream N := {|
    facade_AllocShared := facade_alloc_on NoStream;
    facade_Alloc := facade_alloc_on NoStream;
    facade_Release := facade_release;
    facade_AllocShared_stream := facade_alloc_stream;
    facade_Alloc_stream := facade_alloc_stream;
    facade_InSameStream h s :=
      with_allocation h (fun a => ret (bool_decide (alloc_stream a = s)));
    facade_GetBasePtr h := with_allocation h (fun a => ret (basePointer a));
    facade_Release_gpu p s :=
      do! modify (fun w => set_tracker (filter (fun s' => s' <> s) <$> tracker w) w) in
      facade_release p;
    facade_RecordStream_gpu := facade_record_stream;
    facade_EraseStream h s := with_allocation h (fun a => modify (erase a s));
    facade_GetStream h := with_allocation h (fun a => ret (alloc_stream a));
    facade_RecordStream_custom := facade_record_stream;
  |}.

  (** A handle is valid when it points to an allocation. *)
Definition valid (h : Handle) : Prop := is_Some h.

End allocation.

(** ** Predicates on flat offset lists *)

(** Offsets [a] and [b] are adjacent in [l], [a] at index [i]. *)
Definition adjacent (l : list Z) (i : nat) (a b : Z) : Prop :=
  l !! i = Some a /\ l !! S i = Some b.

(** Some later offset is strictly smaller than the one before it. *)
Definition has_descent (l : list Z) : Prop :=
  exists i a b, adjacent l i a b /\ b < a.

(** Some later offset is not strictly greater than the one before it. *)
Definition has_non_increase (l : list Z) : Prop :=
  exists i a b, adjacent l i a b /\ ~ a < b.

Fixpoint ascendingb (l : list Z) : bool :=
  match l with
  | a :: (b :: _) as rest => (b >=? a) && ascendingb rest
  | _ => true
  end.

(** The message of the first check of lines 79-108 that a flat offset list
    fails for an input of first-dimension extent [extent], if any. *)
Definition flat_verdict (extent : Z) (l : list Z) : option string :=
  match l with
  | [] | [_] => Some LoDResetKernel.msg_target_size
  | first :: _ =>
      if negb (first =? 0) then Some LoDResetKernel.msg_target_start
      else if negb (default 0 (last l) =? extent)
           then Some LoDResetKernel.msg_target_last
      else if negb (ascendingb l) then Some LoDResetKernel.msg_target_ascending
      else None
  end.

(** The LoD of Out after lines 110-122. *)
Definition updated_lod (append : bool) (existing : LegacyLoD) (ulevel0 : list Z)
  : LegacyLoD :=
  if append then existing ++ [ulevel0] else [ulevel0].

(** Compute reads Input(X) only through the context; [with_Input_X] swaps it. *)
Definition with_Input_X {T} (x : DenseTensor T)
    (ctx : LoDResetKernel.ExecutionContext T) : LoDResetKernel.ExecutionContext T :=
  {| LoDResetKernel.Input_X := x;
     LoDResetKernel.Input_Y := LoDResetKernel.Input_Y ctx;
     LoDResetKernel.Attr_append := LoDResetKernel.Attr_append ctx;
     LoDResetKernel.Attr_target_lod := LoDResetKernel.Attr_target_lod ctx |}.

(** The LoD index the caller supplies: the LoD of Input(Y) when it has one,
    else the flat offset list as a single level. *)
Definition supplied_lod {T} (ctx : LoDResetKernel.ExecutionContext T) : LegacyLoD :=
  match LoDResetKernel.flat_offsets ctx with
  | Some l => [l]
  | None => from_option lod [] (LoDResetKernel.Input_Y ctx)
  end.

(** Compute fails with InvalidArgument; Out holds the copy of the input made
    before the checks and its LoD is as it was. *)
Definition rejected {T} (ctx : LoDResetKernel.ExecutionContext T)
    (out : DenseTensor T) : Prop :=
  threw (LoDResetKernel.Compute ctx out).1 InvalidArgument
  /\ (LoDResetKernel.Compute ctx out).2
     = TensorCopy (LoDResetKernel.Input_X ctx)
         (place (LoDResetKernel.Input_X ctx)) out
  /\ lod (LoDResetKernel.Compute ctx out).2 = lod out.

(** Whether Compute appends to the LoD of Out: on the flat path with the
    attribute "append" set. *)
Definition appends {T} (ctx : LoDResetKernel.ExecutionContext T) : bool :=
  match LoDResetKernel.flat_offsets ctx with
  | Some _ => LoDResetKernel.Attr_append ctx
  | None => false
  end.

(** ** Concrete inputs *)

Module Fixtures.
Import LoDResetKernel.

(** An input of first-dimension extent 5 that carries a LoD of its own. *)
Definition x5 : DenseTensor Z :=
  {| data := [10; 20; 30; 40; 50]; dims := {| dim0 := 5; dims_rest := [1] |};
     lod := [[0; 1; 5]]; place := Host |}.

(** An output variable that already has one LoD level. *)
Definition out_one_level : DenseTensor Z :=
  {| data := []; dims := {| dim0 := 0; dims_rest := [] |};
     lod := [[0; 5]]; place := Host |}.

(** The offsets come from the target_lod attribute. *)
Definition ctx_attr (level0 : list Z) (append : bool) : ExecutionContext Z :=
  {| Input_X := x5; Input_Y := None; Attr_append := append;
     Attr_target_lod := level0 |}.

(** The offsets come from the buffer of a LoD-less Input(Y) on the GPU. *)
Definition y_buffer (level0 : list Z) : DenseTensor Z :=
  {| data := level0;
     dims := {| dim0 := Z.of_nat (length level0); dims_rest := [] |};
     lod := []; place := Accelerator 0 |}.

(** Input(Y) carries a two-level LoD whose last level neither starts at 0
    nor ascends, and ends at 5. *)
Definition y_nested : DenseTensor Z :=
  {| data := []; dims := {| dim0 := 0; dims_rest := [] |};
     lod := [[0; 2]; [4; 1; 5]]; place := Host |}.

Definition ctx_y (y : DenseTensor Z) (append : bool) : ExecutionContext Z :=
  {| Input_X := x5; Input_Y := Some y; Attr_append := append;
     Attr_target_lod := [] |}.

End Fixtures.

(** ** Further notions for the kernel *)

(** The tensor behind Out right after line 47. *)
Definition copied {T} (ctx : LoDResetKernel.ExecutionContext T)
    (out : DenseTensor T) : DenseTensor T :=
  TensorCopy (LoDResetKernel.Input_X ctx)
    (place (LoDResetKernel.Input_X ctx)) out.

(** Out after [n] runs of Compute one after the other, each on what the run
    before left behind. *)
Fixpoint run_n {T} (ctx : LoDResetKernel.ExecutionContext T) (n : nat)
    (out : DenseTensor T) : DenseTensor T :=
  match n with
  | O => out
  | S n' => run_n ctx n' (LoDResetKernel.Compute ctx out).2
  end.

(** The lengths of the sequences a level of offsets delimits. *)
Fixpoint seq_lengths (l : list Z) : list Z :=
  match l with
  | a :: (b :: _) as rest => (b - a) :: seq_lengths rest
  | _ => []
  end.

Definition sum_list (l : list Z) : Z := foldr Z.add 0 l.

(** The messages of the four checks of the flat offset list. *)
Definition flat_messages : list string :=
  [LoDResetKernel.msg_target_size; LoDResetKernel.msg_target_start;
   LoDResetKernel.msg_target_last; LoDResetKernel.msg_target_ascending].

Module MoreFixtures.
Import LoDResetKernel.

(** Input(Y) carries a LoD whose last level has no offsets. *)
Definition y_empty_level : DenseTensor Z :=
  {| data := [0; 5]; dims := {| dim0 := 2; dims_rest := [] |};
     lod := [[0; 5]; []]; place := Host |}.

(** An input with no rows. *)
Definition x0 : DenseTensor Z :=
  {| data := []; dims := {| dim0 := 0; dims_rest := [3] |};
     lod := []; place := Host |}.

Definition ctx_x0 (level0 : list Z) : ExecutionContext Z :=
  {| Input_X := x0; Input_Y := None; Attr_append := false;
     Attr_target_lod := level0 |}.

(** Another output variable, with other content than [Fixtures.out_one_level]. *)
Definition out_other : DenseTensor Z :=
  {| data := [7]; dims := {| dim0 := 1; dims_rest := [] |};
     lod := [[0; 1]; [0; 1]]; place := Accelerator 1 |}.

End MoreFixtures.

(** ** Facts about the kernel *)

Section KernelFacts.
Context {T : Type}.
Import LoDResetKernel.

Implicit Types (ctx : ExecutionContext T) (out s : DenseTensor T) (l : list Z).

Lemma for_ascending_from (L : list Z) (e : EnforceNotMet) s :
  forall l k, drop k L = l ->
    for_ (length l - 1) k (fun i =>
      let! next := vec_at L (i + 1) in
      let! cur := vec_at L i in
      PADDLE_ENFORCE_GE next cur e) s
    = (if ascendingb l then Returned tt else Threw e, s).
Proof.
  induction l as [|a t IH]; intros k Hk; [reflexivity|].
  destruct t as [|b t']; [reflexivity|].
  assert (Ha : L !! k = Some a).
  { rewrite <- (Nat.add_0_r k), <- lookup_drop, Hk. reflexivity. }
  assert (Hb : L !! (k + 1)%nat = Some b).
  { rewrite <- lookup_drop, Hk. reflexivity. }
  assert (Ht : drop (S k) L = b :: t').
  { replace (S k) with (k + 1)%nat by lia.
    rewrite <- (drop_drop L 1 k), Hk. reflexivity. }
  specialize (IH (S k) Ht).
  change (length (a :: b :: t') - 1)%nat with (S (length t')).
  change (length (b :: t') - 1)%nat with (length t' - 0)%nat in IH.
  rewrite Nat.sub_0_r in IH.
  cbn [for_ ascendingb]. unfold bind at 1. unfold bind at 1.
  unfold vec_at at 1. rewrite Hb. cbn [ret].
  unfold bind at 1. unfold vec_at at 1. rewrite Ha. cbn [ret].
  unfold PADDLE_ENFORCE_GE.
  destruct (b >=? a); cbn [andb ret throw]; [exact IH | reflexivity].
Qed.

Lemma check_ascending_run l s :
  check_ascending l s
  = (if ascendingb l then Returned tt
     else Threw (invalid_argument msg_target_ascending), s).
Proof. apply for_ascending_from. reflexivity. Qed.

(** The flat path, as one case analysis: it throws the message of the first
    failing check and leaves the state alone, or it returns and sets the LoD. *)
Lemma reset_with_level0_run (in_ : DenseTensor T) (append : bool) l s :
  reset_with_level0 in_ append l s
  = match flat_verdict (dim0 (dims in_)) l with
    | Some msg => (Threw (invalid_argument msg), s)
    | None =>
        (Returned tt,
         set_lod (updated_lod append (lod s) (map int_to_size_t l)) s)
    end.
Proof.
  destruct l as [|first [|second rest]]; [reflexivity | reflexivity |].
  unfold flat_verdict. cbv beta iota.
  assert (Hlen : (Z.of_nat (length (first :: second :: rest)) >? 1) = true).
  { cbn [length]. apply Z.gtb_lt. lia. }
  assert (Hfirst : (first :: second :: rest) !! 0%nat = Some first) by reflexivity.
  assert (Hlast : exists b, last (first :: second :: rest) = Some b).
  { destruct (last (first :: second :: rest)) eqn:E; [eauto|].
    apply last_None in E. discriminate. }
  destruct Hlast as [b Hlast].
  generalize dependent (first :: second :: rest). intros L Hlen Hfirst Hlast.
  unfold reset_with_level0.
  unfold bind at 1. unfold PADDLE_ENFORCE_GT. rewrite Hlen. cbn [ret].
  unfold bind at 1. unfold vec_at at 1. rewrite Hfirst. cbn [ret].
  unfold bind at 1. unfold PADDLE_ENFORCE_EQ at 1. unfold int_to_int64.
  rewrite Hlast. cbn [default from_option]. unfold id.
  destruct (first =? 0); cbn [negb ret throw]; [|reflexivity].
  unfold bind at 1. unfold vec_back. rewrite Hlast. cbn [ret].
  unfold bind at 1. unfold PADDLE_ENFORCE_EQ.
  destruct (b =? dim0 (dims in_)); cbn [negb ret throw]; [|reflexivity].
  unfold bind. rewrite check_ascending_run.
  destruct (ascendingb L); cbn [negb]; [|reflexivity].
  destruct append; reflexivity.
Qed.

Lemma Compute_flat ctx out l :
  flat_offsets ctx = Some l ->
  Compute ctx out
  = reset_with_level0 (Input_X ctx) (Attr_append ctx) l
      (TensorCopy (Input_X ctx) (place (Input_X ctx)) out).
Proof.
  unfold flat_offsets, Compute. intros H.
  unfold bind, modify.
  destruct (Input_Y ctx) as [lod_t|].
  - destruct (Z.of_nat (length (lod lod_t)) >? 0); [discriminate|].
    injection H as <-. reflexivity.
  - injection H as <-. reflexivity.
Qed.

Lemma Compute_flat_run ctx out l :
  flat_offsets ctx = Some l ->
  Compute ctx out
  = let copied := TensorCopy (Input_X ctx) (place (Input_X ctx)) out in
    match flat_verdict (dim0 (dims (Input_X ctx))) l with
    | Some msg => (Threw (invalid_argument msg), copied)
    | None =>
        (Returned tt,
         set_lod (updated_lod (Attr_append ctx) (lod out) (map int_to_size_t l))
           copied)
    end.
Proof.
  intros H. rewrite (Compute_flat _ _ _ H), reset_with_level0_run. reflexivity.
Qed.

Lemma ascendingb_false_iff l : ascendingb l = false <-> has_descent l.
Proof.
  induction l as [|a t IH].
  - split; [discriminate|]. intros (i & x & y & [H _] & _). destruct i; discriminate.
  - destruct t as [|b t'].
    + split; [discriminate|]. intros (i & x & y & [_ H] & _). destruct i; discriminate.
    + cbn [ascendingb]. rewrite andb_false_iff, IH. split.
      * intros [H | (i & x & y & [Hx Hy] & Hlt)].
        -- exists 0%nat, a, b. repeat split.
           rewrite Z.geb_leb in H. apply Z.leb_gt in H. exact H.
        -- exists (S i), x, y. repeat split; assumption.
      * intros (i & x & y & [Hx Hy] & Hlt). destruct i as [|i].
        -- left. injection Hx as <-. injection Hy as <-.
           rewrite Z.geb_leb. apply Z.leb_gt. exact Hlt.
        -- right. exists i, x, y. repeat split; assumption.
Qed.

(** A list that passes every check starts at 0, ends at the extent and does
    not descend; its offsets lie between 0 and the extent. *)
Lemma flat_verdict_None extent l :
  flat_verdict extent l = None <->
  (2 <= length l)%nat /\ head l = Some 0 /\ last l = Some extent
  /\ ~ has_descent l.
Proof.
  unfold flat_verdict.
  destruct l as [|first [|second rest]].
  - split; [discriminate|]. cbn [length]. lia.
  - split; [discriminate|]. cbn [length]. lia.
  - assert (Hlast : exists b, last (first :: second :: rest) = Some b).
    { destruct (last (first :: second :: rest)) eqn:E; [eauto|].
      apply last_None in E. discriminate. }
    destruct Hlast as [b Hlast]. rewrite Hlast. cbn [default from_option head]. unfold id.
    assert (Hlen : (2 <= length (first :: second :: rest))%nat) by (cbn [length]; lia).
    generalize dependent (first :: second :: rest). intros L Hlast Hlen.
    rewrite <- ascendingb_false_iff.
    destruct (Z.eqb_spec first 0) as [->|Hf]; cbn [negb].
    + destruct (Z.eqb_spec b extent) as [->|Hb]; cbn [negb].
      * destruct (ascendingb L); cbn [negb].
        -- split; [|reflexivity]. intros _. repeat split; [lia | discriminate].
        -- split; [discriminate|]. intros (_ & _ & _ & H). now destruct H.
      * split; [discriminate|]. intros (_ & _ & H & _). congruence.
    + split; [discriminate|]. intros (_ & H & _). congruence.
Qed.

End KernelFacts.

(** ** The flat offset list: validation *)

Section FlatValidation.
Context {T : Type}.
Import LoDResetKernel.

Implicit Types (ctx : ExecutionContext T) (out : DenseTensor T) (l : list Z).

Lemma rejected_of_verdict ctx out l msg :
  flat_offsets ctx = Some l ->
  flat_verdict (dim0 (dims (Input_X ctx))) l = Some msg ->
  Compute ctx out
  = (Threw (invalid_argument msg),
     TensorCopy (Input_X ctx) (place (Input_X ctx)) out)
  /\ rejected ctx out.
Proof.
  intros Hl Hv. pose proof (Compute_flat_run ctx out l Hl) as Hrun.
  cbv zeta in Hrun. rewrite Hv in Hrun. split; [exact Hrun|].
  unfold rejected. rewrite Hrun. cbn [fst snd].
  repeat split. exists msg. reflexivity.
Qed.

Lemma returns_iff_no_verdict ctx out l :
  flat_offsets ctx = Some l ->
  (Compute ctx out).1 = Returned tt
  <-> flat_verdict (dim0 (dims (Input_X ctx))) l = None.
Proof.
  intros Hl. rewrite (Compute_flat_run ctx out l Hl). cbv zeta.
  destruct (flat_verdict _ l); cbn [fst]; split; congruence.
Qed.

(** C1, as amended.  For every flat offset list, whether it comes from a
    LoD-less Input(Y) or from the target_lod attribute, that contains an
    adjacent pair whose later offset is strictly smaller than the earlier
    one, Compute fails with InvalidArgument and leaves the LoD of Out
    untouched.  The check is of non-strict monotonicity: Compute returns
    exactly when the list has at least two offsets, starts at 0, ends at the
    first-dimension extent of the input and never descends, so equal adjacent
    offsets are accepted. *)
Theorem C1_descending_offsets_rejected ctx out l
    (Hl : flat_offsets ctx = Some l) :
  (has_descent l -> rejected ctx out)
  /\ ((Compute ctx out).1 = Returned tt
      <-> (2 <= length l)%nat /\ head l = Some 0
          /\ last l = Some (dim0 (dims (Input_X ctx))) /\ ~ has_descent l).
Proof.
  split.
  - intros Hd.
    destruct (flat_verdict (dim0 (dims (Input_X ctx))) l) as [msg|] eqn:Hv.
    + exact (proj2 (rejected_of_verdict ctx out l msg Hl Hv)).
    + apply flat_verdict_None in Hv. destruct Hv as (_ & _ & _ & Hn). now destruct Hn.
  - rewrite (returns_iff_no_verdict ctx out l Hl). apply flat_verdict_None.
Qed.

(** C3.  A flat offset list whose last offset differs from the extent of the
    first dimension of the input makes Compute fail with InvalidArgument.
    With extent 5, the list [0,2,5] is accepted and becomes the new level,
    and [0,2,4] fails on the check of the last offset. *)
Theorem C3_last_offset_is_extent ctx out l
    (Hl : flat_offsets ctx = Some l) :
  let copied := TensorCopy (Input_X ctx) (place (Input_X ctx)) out in
  (last l <> Some (dim0 (dims (Input_X ctx))) -> rejected ctx out)
  /\ (dim0 (dims (Input_X ctx)) = 5 -> l = [0; 2; 5] ->
      Compute ctx out
      = (Returned tt,
         set_lod (updated_lod (Attr_append ctx) (lod out) [0; 2; 5]) copied))
  /\ (dim0 (dims (Input_X ctx)) = 5 -> l = [0; 2; 4] ->
      Compute ctx out = (Threw (invalid_argument msg_target_last), copied)).
Proof.
  intros copied. split; [|split].
  - intros Hlast.
    destruct (flat_verdict (dim0 (dims (Input_X ctx))) l) as [msg|] eqn:Hv.
    + exact (proj2 (rejected_of_verdict ctx out l msg Hl Hv)).
    + apply flat_verdict_None in Hv. destruct Hv as (_ & _ & H & _). now destruct Hlast.
  - intros Hd ->. rewrite (Compute_flat_run ctx out _ Hl), Hd. reflexivity.
  - intros Hd ->. rewrite (Compute_flat_run ctx out _ Hl), Hd. reflexivity.
Qed.

(** C5.  A flat offset list whose first offset is not 0 makes Compute fail
    with InvalidArgument; when the list has at least two offsets it is the
    check of the first offset that fails. *)
Theorem C5_first_offset_is_zero ctx out l (first : Z)
    (Hl : flat_offsets ctx = Some l)
    (Hfirst : head l = Some first) (Hnz : first <> 0) :
  rejected ctx out
  /\ ((2 <= length l)%nat ->
      (Compute ctx out).1 = Threw (invalid_argument msg_target_start)).
Proof.
  assert (Hv : flat_verdict (dim0 (dims (Input_X ctx))) l
               = Some (if decide (2 <= length l)%nat
                       then msg_target_start else msg_target_size)).
  { destruct l as [|a [|b t]]; [discriminate | reflexivity |].
    injection Hfirst as ->. unfold flat_verdict.
    destruct (Z.eqb_spec first 0) as [E|_]; [contradiction|]. cbn [negb].
    destruct (decide _) as [_|Hn]; [reflexivity|]. cbn [length] in Hn. lia. }
  destruct (rejected_of_verdict ctx out l _ Hl Hv) as [Hrun Hrej].
  split; [exact Hrej|]. intros Hlen. rewrite Hrun.
  destruct (decide _); [reflexivity | contradiction].
Qed.

(** C9.  A flat offset list with fewer than two offsets, the empty list
    included, makes Compute fail with InvalidArgument on the check of the
    size, the first of the checks of the flat list, whatever its one offset
    is. *)
Theorem C9_fewer_than_two_offsets ctx out l
    (Hl : flat_offsets ctx = Some l) (Hlen : (length l < 2)%nat) :
  Compute ctx out
  = (Threw (invalid_argument msg_target_size),
     TensorCopy (Input_X ctx) (place (Input_X ctx)) out)
  /\ rejected ctx out.
Proof.
  apply (rejected_of_verdict ctx out l _ Hl).
  destruct l as [|a [|b t]]; [reflexivity | reflexivity |].
  cbn [length] in Hlen. lia.
Qed.

End FlatValidation.

(** ** The LoD and the buffer of Out after a run *)

Section Outputs.
Context {T : Type}.
Import LoDResetKernel.

Implicit Types (ctx : ExecutionContext T) (out s : DenseTensor T) (l : list Z).

Lemma ascendingb_lower_bound l :
  forall a, ascendingb l = true -> head l = Some a -> Forall (fun x => a <= x) l.
Proof.
  induction l as [|x t IH]; intros a Hasc Hhead; [constructor|].
  injection Hhead as ->. constructor; [lia|].
  destruct t as [|y t']; [constructor|].
  cbn [ascendingb] in Hasc. apply andb_true_iff in Hasc as [Hge Hasc].
  rewrite Z.geb_leb in Hge. apply Z.leb_le in Hge.
  specialize (IH y Hasc eq_refl).
  eapply Forall_impl; [exact IH|]. intros z Hz. cbn beta in Hz. lia.
Qed.

Lemma accepted_offsets_nonneg extent l :
  flat_verdict extent l = None -> Forall (fun x => 0 <= x) l.
Proof.
  intros Hv. apply flat_verdict_None in Hv as (_ & Hhead & _ & Hnd).
  apply ascendingb_lower_bound; [|exact Hhead].
  destruct (ascendingb l) eqn:E; [reflexivity|].
  apply ascendingb_false_iff in E. now destruct Hnd.
Qed.

(** The cast of line 113 changes no offset of an accepted list of ints. *)
Lemma cast_accepted_offsets extent l :
  flat_verdict extent l = None -> Forall int_range l ->
  map int_to_size_t l = l.
Proof.
  intros Hv Hint. apply accepted_offsets_nonneg in Hv.
  induction l as [|a t IH]; [reflexivity|].
  apply Forall_cons in Hv as [Ha Hv]. apply Forall_cons in Hint as [Hr Hint].
  cbn [map]. rewrite (IH Hv Hint). f_equal.
  unfold int_to_size_t, int_range in *. apply Z.mod_small. lia.
Qed.

Lemma Compute_nested ctx out lod_t :
  Input_Y ctx = Some lod_t -> lod lod_t <> [] ->
  Compute ctx out
  = adopt_y_lod (Input_X ctx) lod_t
      (TensorCopy (Input_X ctx) (place (Input_X ctx)) out).
Proof.
  intros HY Hne. unfold Compute, bind, modify. rewrite HY.
  destruct (lod lod_t) as [|lv rest] eqn:E; [contradiction|].
  reflexivity.
Qed.

Lemma adopt_y_lod_run (in_ : DenseTensor T) (lod_t : DenseTensor Z) s
    (last_level : list Z) (b : Z) :
  last (lod lod_t) = Some last_level -> last last_level = Some b ->
  adopt_y_lod in_ lod_t s
  = if size_t_to_int64 b =? dim0 (dims in_)
    then (Returned tt, set_lod (lod lod_t) s)
    else (Threw (invalid_argument msg_y_last_level), s).
Proof.
  intros Hlv Hb. unfold adopt_y_lod.
  unfold bind at 1. unfold vec_at.
  rewrite Nat.sub_1_r, <- last_lookup, Hlv. cbn [ret].
  unfold bind at 1. unfold vec_back. rewrite Hb. cbn [ret].
  unfold bind, PADDLE_ENFORCE_EQ.
  destruct (size_t_to_int64 b =? dim0 (dims in_)); reflexivity.
Qed.

Lemma adopt_y_lod_returns (in_ : DenseTensor T) (lod_t : DenseTensor Z) s :
  (adopt_y_lod in_ lod_t s).1 = Returned tt ->
  (adopt_y_lod in_ lod_t s).2 = set_lod (lod lod_t) s.
Proof.
  destruct (last (lod lod_t)) as [lv|] eqn:Hlv.
  - destruct (last lv) as [b|] eqn:Hb.
    + rewrite (adopt_y_lod_run _ _ _ lv b Hlv Hb).
      destruct (_ =? _); cbn [fst snd]; [reflexivity | discriminate].
    + unfold adopt_y_lod. unfold bind at 1. unfold vec_at.
      rewrite Nat.sub_1_r, <- last_lookup, Hlv. cbn [ret].
      unfold bind at 1. unfold vec_back. rewrite Hb. cbn [undefined fst].
      discriminate.
  - unfold adopt_y_lod. unfold bind at 1. unfold vec_at.
    rewrite Nat.sub_1_r, <- last_lookup, Hlv. cbn [undefined fst].
    discriminate.
Qed.

(** C2.  When Input(Y) carries a LoD, Compute compares the last value of its
    last level with the extent of the first dimension of the input and does
    nothing else with it: if they agree it returns with that LoD as the LoD
    of Out, whatever the offsets of its levels are and whatever the buffer of
    Input(Y) and the attributes hold; otherwise it throws InvalidArgument. *)
Theorem C2_nested_lod_adopted ctx out (lod_t : DenseTensor Z)
    (last_level : list Z) (b : Z)
    (HY : Input_Y ctx = Some lod_t)
    (Hlevel : last (lod lod_t) = Some last_level)
    (Hback : last last_level = Some b) :
  let copied := TensorCopy (Input_X ctx) (place (Input_X ctx)) out in
  Compute ctx out
  = if size_t_to_int64 b =? dim0 (dims (Input_X ctx))
    then (Returned tt, set_lod (lod lod_t) copied)
    else (Threw (invalid_argument msg_y_last_level), copied).
Proof.
  intros copied. rewrite (Compute_nested ctx out lod_t HY).
  - apply (adopt_y_lod_run _ _ _ last_level b Hlevel Hback).
  - intros E. rewrite E in Hlevel. discriminate.
Qed.

(** C10.  When a flat offset list passes the checks, Compute appends it as a
    further level after the levels Out already has if the attribute "append"
    is true, and replaces the LoD of Out by the single level holding the list
    if it is false. *)
Theorem C10_append_or_replace ctx out l
    (Hl : flat_offsets ctx = Some l)
    (Hint : Forall int_range l)
    (Hret : (Compute ctx out).1 = Returned tt) :
  lod (Compute ctx out).2
  = if Attr_append ctx then lod out ++ [l] else [l].
Proof.
  apply (returns_iff_no_verdict ctx out l Hl) in Hret.
  rewrite (Compute_flat_run ctx out l Hl). cbv zeta. rewrite Hret.
  rewrite (cast_accepted_offsets _ l Hret Hint). reflexivity.
Qed.

(** C4, as amended.  On every run of Compute that returns, the buffer and
    the shape of Out are those of the input; the LoD of Out is the supplied
    index (the LoD of Input(Y), or the flat list as a single level), placed
    after the levels Out already had when the list is flat and "append" is
    true; and the LoD of the input plays no part in the run. *)
Theorem C4_output_copy_and_lod ctx out
    (Hint : forall l, flat_offsets ctx = Some l -> Forall int_range l)
    (Hret : (Compute ctx out).1 = Returned tt) :
  data (Compute ctx out).2 = data (Input_X ctx)
  /\ dims (Compute ctx out).2 = dims (Input_X ctx)
  /\ lod (Compute ctx out).2
     = (if appends ctx then lod out else []) ++ supplied_lod ctx
  /\ (forall x', data x' = data (Input_X ctx) -> dims x' = dims (Input_X ctx) ->
        place x' = place (Input_X ctx) ->
        Compute (with_Input_X x' ctx) out = Compute ctx out).
Proof.
  assert (Hmain : data (Compute ctx out).2 = data (Input_X ctx)
                  /\ dims (Compute ctx out).2 = dims (Input_X ctx)
                  /\ lod (Compute ctx out).2
                     = (if appends ctx then lod out else []) ++ supplied_lod ctx).
  { unfold appends, supplied_lod.
    destruct (flat_offsets ctx) as [l|] eqn:Hl.
    - specialize (Hint l eq_refl).
      apply (returns_iff_no_verdict ctx out l Hl) in Hret.
      rewrite (Compute_flat_run ctx out l Hl). cbv zeta. rewrite Hret.
      rewrite (cast_accepted_offsets _ l Hret Hint).
      cbn [snd]. repeat split.
      unfold set_lod, updated_lod. cbn [lod].
      destruct (Attr_append ctx); reflexivity.
    - unfold flat_offsets in Hl.
      destruct (Input_Y ctx) as [lod_t|] eqn:HY; [|discriminate].
      assert (Hne : lod lod_t <> []).
      { intros E. rewrite E in Hl. discriminate. }
      rewrite (Compute_nested ctx out lod_t HY Hne) in Hret |- *.
      rewrite (adopt_y_lod_returns _ _ _ Hret).
      repeat split. }
  destruct Hmain as (Hdata & Hdims & Hlod).
  repeat split; [exact Hdata | exact Hdims | exact Hlod |].
  intros x' Hd Hs Hp. unfold Compute, with_Input_X, bind, modify. cbn.
  unfold TensorCopy, reset_with_level0, adopt_y_lod. rewrite Hd, Hs, Hp.
  reflexivity.
Qed.

End Outputs.

(** C6.  The gradient kernel copies the incoming gradient into the outgoing
    one and does nothing else: it always returns, it checks nothing, the
    buffer and shape of the output gradient are those of the input gradient,
    and the LoD of the output variable stays as it was. *)
Theorem C6_grad_is_copy {T} (ctx : LoDResetGradKernel.ExecutionContext T)
    (d_x : DenseTensor T) :
  let d_out := LoDResetGradKernel.Input_d_out ctx in
  LoDResetGradKernel.Compute ctx d_x
  = (Returned tt, TensorCopy d_out (place d_out) d_x)
  /\ data (LoDResetGradKernel.Compute ctx d_x).2 = data d_out
  /\ dims (LoDResetGradKernel.Compute ctx d_x).2 = dims d_out
  /\ place (LoDResetGradKernel.Compute ctx d_x).2 = place d_out
  /\ lod (LoDResetGradKernel.Compute ctx d_x).2 = lod d_x.
Proof. repeat split. Qed.

(** ** The memory entry points *)

Section EntryPointFacts.
Context {World SharedAllocation AllocationPtr gpuStream_t stream_t VoidPtr : Type}.
Context (Instance :
  memory.AllocatorFacade World SharedAllocation AllocationPtr gpuStream_t
    stream_t VoidPtr).
Import memory.

(** C7.  Every entry point of paddle::memory, run in any state of the
    process, ends as the method of the same name of the AllocatorFacade
    instance does on the same arguments: same outcome (value, exception or
    undefined behaviour) and same final state. *)
Theorem C7_entry_points_delegate (w : World) :
  (forall place size,
     AllocShared Instance place size w = facade_AllocShared place size w)
  /\ (forall place size, Alloc Instance place size w = facade_Alloc place size w)
  /\ (forall place, Release Instance place w = facade_Release place w)
  /\ (forall place size stream,
        AllocShared_stream Instance place size stream w
        = facade_AllocShared_stream place size stream w)
  /\ (forall place size stream,
        Alloc_stream Instance place size stream w
        = facade_Alloc_stream place size stream w)
  /\ (forall allocation stream,
        InSameStream Instance allocation stream w
        = facade_InSameStream allocation stream w)
  /\ (forall allocation,
        GetBasePtr Instance allocation w = facade_GetBasePtr allocation w)
  /\ (forall place stream,
        Release_gpu Instance place stream w = facade_Release_gpu place stream w)
  /\ (forall allocation stream,
        RecordStream_gpu Instance allocation stream w
        = facade_RecordStream_gpu allocation stream w)
  /\ (forall allocation stream,
        EraseStream Instance allocation stream w
        = facade_EraseStream allocation stream w)
  /\ (forall allocation,
        GetStream Instance allocation w = facade_GetStream allocation w)
  /\ (forall allocation stream,
        RecordStream_custom Instance allocation stream w
        = facade_RecordStream_custom allocation stream w).
Proof. repeat split. Qed.

End EntryPointFacts.

(** ** Allocation through the facade *)

Section AllocFacts.
Import allocation.
Local Open Scope N_scope.

Lemma round_up_ge (size g : N) : size <= round_up size g.
Proof.
  unfold round_up. destruct (N.eqb_spec g 0) as [->|Hg]; [lia|].
  pose proof (N.div_mod (size + g - 1) g Hg) as Hdm.
  pose proof (N.mod_lt (size + g - 1) g Hg) as Hlt.
  nia.
Qed.

Lemma take_block_fits need blocks b rest :
  take_block need blocks = Some (b, rest) -> need <= bytes b.
Proof.
  revert b rest. induction blocks as [|x t IH]; intros b rest H; [discriminate|].
  cbn [take_block] in H. destruct (N.leb_spec need (bytes x)) as [Hle|_].
  - injection H as <- _. exact Hle.
  - destruct (take_block need t) as [[found rest']|]; [|discriminate].
    injection H as <- _. eapply IH. reflexivity.
Qed.

Lemma allocate_fits size st b st' :
  allocate size st = (Some b, st') -> size <= bytes b.
Proof.
  unfold allocate. intros H. pose proof (round_up_ge size (granule st)) as Hr.
  destruct (take_block _ (pool st)) as [[found rest]|] eqn:Ht.
  - injection H as <- _. apply take_block_fits in Ht. lia.
  - destruct (_ <=? device_free st); [|discriminate].
    injection H as <- _. exact Hr.
Qed.

Lemma allocate_with_retry_fits size st b st' :
  allocate_with_retry size st = (Some b, st') -> size <= bytes b.
Proof.
  unfold allocate_with_retry.
  destruct (allocate size st) as [[b0|] st0] eqn:H0; intros H.
  - injection H as <- _. eapply allocate_fits, H0.
  - eapply allocate_fits, H.
Qed.

(** C8.  For every place and every size, Alloc either returns a handle that
    is not null and points to an allocation of at least that size in that
    place, or it throws OutOfMemory. *)
Theorem C8_alloc_valid_or_oom (w : World) (P : Place) (s : N) :
  (exists a w',
      memory.Alloc spec_facade P s w = (Returned (Some a), w')
      /\ valid (Some a) /\ s <= sizeBytes a /\ alloc_place a = P)
  \/ (exists e w',
        memory.Alloc spec_facade P s w = (Threw e, w')
        /\ code e = OutOfMemory).
Proof.
  unfold memory.Alloc. cbn [memory.facade_Alloc spec_facade].
  unfold facade_alloc_on.
  destruct (allocate_with_retry s (resolve P w)) as [[b|] st'] eqn:H.
  - left. eexists _, _. split; [reflexivity|]. cbn [sizeBytes alloc_place].
    repeat split; [eexists; reflexivity|].
    eapply allocate_with_retry_fits, H.
  - right. eexists _, _. split; reflexivity.
Qed.

End AllocFacts.

(** ** The claims at concrete inputs *)

Section Instances.
Import LoDResetKernel Fixtures.

(** The list [0,3,2,5], read from the buffer of a LoD-less Input(Y) on the
    GPU, is rejected: 2 comes after 3. *)
Lemma C1_witness_0325 :
  flat_offsets (ctx_y (y_buffer [0; 3; 2; 5]) false) = Some [0; 3; 2; 5]
  /\ has_descent [0; 3; 2; 5]
  /\ rejected (ctx_y (y_buffer [0; 3; 2; 5]) false) out_one_level.
Proof.
  assert (Hd : has_descent [0; 3; 2; 5]).
  { exists 1%nat, 3, 2. repeat split; reflexivity. }
  split; [reflexivity|]. split; [exact Hd|].
  exact (proj1 (C1_descending_offsets_rejected
                  (ctx_y (y_buffer [0; 3; 2; 5]) false) out_one_level
                  [0; 3; 2; 5] eq_refl) Hd).
Defined.

(** The list [0,2,2,5] has two equal adjacent offsets, and Compute accepts
    it for an input of extent 5. *)
Lemma C1_equal_offsets_accepted :
  flat_offsets (ctx_attr [0; 2; 2; 5] false) = Some [0; 2; 2; 5]
  /\ has_non_increase [0; 2; 2; 5]
  /\ Compute (ctx_attr [0; 2; 2; 5] false) out_one_level
     = (Returned tt,
        {| data := data x5; dims := dims x5; lod := [[0; 2; 2; 5]];
           place := Host |})
  /\ ~ rejected (ctx_attr [0; 2; 2; 5] false) out_one_level.
Proof.
  split; [reflexivity|]. split.
  { exists 1%nat, 2, 2. repeat split. intros H. discriminate H. }
  split; [reflexivity|].
  intros ([msg Hthrew] & _). discriminate Hthrew.
Qed.

(** A LoD of Input(Y) whose last level is [4,1,5] is taken over as it is,
    while the attribute target_lod is empty. *)
Lemma C2_witness_nested :
  Compute (ctx_y y_nested false) out_one_level
  = (Returned tt,
     {| data := data x5; dims := dims x5; lod := [[0; 2]; [4; 1; 5]];
        place := Host |}).
Proof.
  exact (C2_nested_lod_adopted (ctx_y y_nested false) out_one_level y_nested
           [4; 1; 5] 5 eq_refl eq_refl eq_refl).
Defined.

(** Extent 5: [0,2,5] is accepted, [0,2,4] is rejected. *)
Lemma C3_witness_extent5 :
  Compute (ctx_attr [0; 2; 5] false) out_one_level
  = (Returned tt,
     {| data := data x5; dims := dims x5; lod := [[0; 2; 5]]; place := Host |})
  /\ Compute (ctx_attr [0; 2; 4] false) out_one_level
     = (Threw (invalid_argument msg_target_last),
        {| data := data x5; dims := dims x5; lod := [[0; 5]]; place := Host |})
  /\ rejected (ctx_attr [0; 2; 4] false) out_one_level.
Proof.
  split; [|split].
  - exact (proj1 (proj2 (C3_last_offset_is_extent
             (ctx_attr [0; 2; 5] false) out_one_level [0; 2; 5] eq_refl))
             eq_refl eq_refl).
  - exact (proj2 (proj2 (C3_last_offset_is_extent
             (ctx_attr [0; 2; 4] false) out_one_level [0; 2; 4] eq_refl))
             eq_refl eq_refl).
  - apply (proj1 (C3_last_offset_is_extent
             (ctx_attr [0; 2; 4] false) out_one_level [0; 2; 4] eq_refl)).
    intros H. discriminate H.
Defined.

Lemma int_range_0255 : forall l,
  flat_offsets (ctx_attr [0; 2; 5] true) = Some l -> Forall int_range l.
Proof.
  intros l H. injection H as <-.
  repeat constructor; unfold int_range; lia.
Defined.

(** With "append" set and a level already on Out, the new level comes
    second. *)
Lemma C4_witness_append :
  lod (Compute (ctx_attr [0; 2; 5] true) out_one_level).2
  = [[0; 5]; [0; 2; 5]]
  /\ data (Compute (ctx_attr [0; 2; 5] true) out_one_level).2
     = [10; 20; 30; 40; 50].
Proof.
  pose proof (C4_output_copy_and_lod (ctx_attr [0; 2; 5] true) out_one_level
                int_range_0255 eq_refl) as (Hdata & _ & Hlod & _).
  split; [exact Hlod | exact Hdata].
Defined.

(** The same run, against the claim as stated: the LoD of Out is not the
    supplied index [[0,2,5]]. *)
Lemma C4_append_keeps_existing_levels :
  Compute (ctx_attr [0; 2; 5] true) out_one_level
  = (Returned tt,
     {| data := data x5; dims := dims x5; lod := [[0; 5]; [0; 2; 5]];
        place := Host |})
  /\ supplied_lod (ctx_attr [0; 2; 5] true) = [[0; 2; 5]]
  /\ lod (Compute (ctx_attr [0; 2; 5] true) out_one_level).2
     <> supplied_lod (ctx_attr [0; 2; 5] true).
Proof.
  split; [reflexivity|]. split; [reflexivity|].
  intros H. discriminate H.
Qed.

(** The list [1,5] does not start at 0. *)
Lemma C5_witness_15 :
  rejected (ctx_attr [1; 5] false) out_one_level
  /\ (Compute (ctx_attr [1; 5] false) out_one_level).1
     = Threw (invalid_argument msg_target_start).
Proof.
  assert (Hnz : 1 <> 0) by (intros H; discriminate H).
  pose proof (C5_first_offset_is_zero (ctx_attr [1; 5] false) out_one_level
                [1; 5] 1 eq_refl eq_refl Hnz) as [Hrej Hmsg].
  split; [exact Hrej|]. apply Hmsg. cbn [length]. lia.
Defined.

(** The one-offset list [5] is rejected for its size although 5 is the
    extent of the input. *)
Lemma C9_witness_single :
  Compute (ctx_attr [5] false) out_one_level
  = (Threw (invalid_argument msg_target_size),
     {| data := data x5; dims := dims x5; lod := [[0; 5]]; place := Host |})
  /\ rejected (ctx_attr [5] false) out_one_level.
Proof.
  assert (Hlen : (length [5] < 2)%nat) by (cbn [length]; lia).
  exact (C9_fewer_than_two_offsets (ctx_attr [5] false) out_one_level [5]
           eq_refl Hlen).
Defined.

Lemma C10_witness_append :
  lod (Compute (ctx_y (y_buffer [0; 2; 5]) true) out_one_level).2
  = [[0; 5]; [0; 2; 5]]
  /\ lod (Compute (ctx_attr [0; 2; 5] false) out_one_level).2 = [[0; 2; 5]].
Proof.
  assert (Hint : Forall int_range [0; 2; 5]).
  { repeat constructor; unfold int_range; lia. }
  split.
  - exact (C10_append_or_replace (ctx_y (y_buffer [0; 2; 5]) true)
             out_one_level [0; 2; 5] eq_refl Hint eq_refl).
  - exact (C10_append_or_replace (ctx_attr [0; 2; 5] false)
             out_one_level [0; 2; 5] eq_refl Hint eq_refl).
Defined.

End Instances.

(** ** Further properties of the kernel *)

Section KernelRuns.
Context {T : Type}.
Import LoDResetKernel.

Implicit Types (ctx : ExecutionContext T) (out s : DenseTensor T) (l : list Z).

Lemma flat_offsets_None ctx :
  flat_offsets ctx = None ->
  exists lod_t, Input_Y ctx = Some lod_t /\ lod lod_t <> [].
Proof.
  unfold flat_offsets. destruct (Input_Y ctx) as [lod_t|]; [|discriminate].
  intros H. exists lod_t. split; [reflexivity|].
  intros E. rewrite E in H. discriminate.
Qed.

Lemma flat_offsets_Some_Y ctx lod_t l :
  Input_Y ctx = Some lod_t -> flat_offsets ctx = Some l -> lod lod_t = [].
Proof.
  unfold flat_offsets. intros ->.
  destruct (lod lod_t) as [|lv rest]; [reflexivity | discriminate].
Qed.

Lemma adopt_y_lod_empty_level (in_ : DenseTensor T) (lod_t : DenseTensor Z) s :
  last (lod lod_t) = Some [] -> adopt_y_lod in_ lod_t s = (Undefined, s).
Proof.
  intros Hlv. unfold adopt_y_lod. unfold bind at 1. unfold vec_at.
  rewrite Nat.sub_1_r, <- last_lookup, Hlv. reflexivity.
Qed.

(** Every run of Compute has one of three shapes: it does not return and
    Out holds the copy of the input with its old LoD; it returns and has
    replaced the LoD; or it returns and has appended one level. *)
Lemma Compute_cases ctx :
  (exists o, o <> Returned tt
     /\ forall out, Compute ctx out = (o, copied ctx out))
  \/ (exists L, appends ctx = false
        /\ forall out, Compute ctx out = (Returned tt, set_lod L (copied ctx out)))
  \/ (exists l, appends ctx = true /\ flat_offsets ctx = Some l
        /\ forall out,
             Compute ctx out
             = (Returned tt,
                set_lod (lod out ++ [map int_to_size_t l]) (copied ctx out))).
Proof.
  unfold appends. destruct (flat_offsets ctx) as [l|] eqn:Hl.
  - destruct (flat_verdict (dim0 (dims (Input_X ctx))) l) as [msg|] eqn:Hv.
    + left. eexists. split; [|intros out].
      2: { rewrite (Compute_flat_run ctx out l Hl). cbv zeta. rewrite Hv.
           reflexivity. }
      discriminate.
    + destruct (Attr_append ctx) eqn:Ha.
      * right. right. exists l. repeat split. intros out.
        rewrite (Compute_flat_run ctx out l Hl). cbv zeta. rewrite Hv, Ha.
        reflexivity.
      * right. left. exists [map int_to_size_t l]. split; [reflexivity|].
        intros out. rewrite (Compute_flat_run ctx out l Hl). cbv zeta.
        rewrite Hv, Ha. reflexivity.
  - destruct (flat_offsets_None ctx Hl) as (lod_t & HY & Hne).
    destruct (last (lod lod_t)) as [lv|] eqn:Hlv.
    2: { apply last_None in Hlv. contradiction. }
    destruct (last lv) as [b|] eqn:Hb.
    + destruct (size_t_to_int64 b =? dim0 (dims (Input_X ctx))) eqn:E.
      * right. left. exists (lod lod_t). split; [reflexivity|]. intros out.
        rewrite (Compute_nested ctx out lod_t HY Hne).
        rewrite (adopt_y_lod_run _ _ _ lv b Hlv Hb), E. reflexivity.
      * left. eexists. split; [|intros out].
        2: { rewrite (Compute_nested ctx out lod_t HY Hne).
             rewrite (adopt_y_lod_run _ _ _ lv b Hlv Hb), E. reflexivity. }
        discriminate.
    + apply last_None in Hb. subst lv.
      left. exists Undefined. split; [discriminate|]. intros out.
      rewrite (Compute_nested ctx out lod_t HY Hne).
      apply adopt_y_lod_empty_level, Hlv.
Qed.

Lemma flat_verdict_message extent l msg :
  flat_verdict extent l = Some msg -> msg ∈ flat_messages.
Proof.
  unfold flat_verdict, flat_messages.
  destruct l as [|a [|b t]]; [intros [= <-]; set_solver.. |].
  repeat (case_match; [intros [= <-]; set_solver|]). discriminate.
Qed.

(** X1.  On the flat path Compute indexes the offset list only where it has
    elements: a run never ends in undefined behaviour; it returns, or it
    throws InvalidArgument with the message of one of the four checks. *)
Theorem X1_flat_path_is_memory_safe ctx out l
    (Hl : flat_offsets ctx = Some l) :
  (Compute ctx out).1 = Returned tt
  \/ exists msg, msg ∈ flat_messages
       /\ (Compute ctx out).1 = Threw (invalid_argument msg).
Proof.
  rewrite (Compute_flat_run ctx out l Hl). cbv zeta.
  destruct (flat_verdict _ l) as [msg|] eqn:Hv; [right | left; reflexivity].
  exists msg. split; [|reflexivity]. eapply flat_verdict_message, Hv.
Qed.

(** X2.  When the last level of the LoD of Input(Y) has no offsets, Compute
    calls back() on an empty vector (line 55): the run is undefined
    behaviour, after Out has taken the copy of the input. *)
Theorem X2_empty_last_level_is_undefined ctx out (lod_t : DenseTensor Z)
    (HY : Input_Y ctx = Some lod_t)
    (Hlevel : last (lod lod_t) = Some []) :
  Compute ctx out = (Undefined, copied ctx out).
Proof.
  rewrite (Compute_nested ctx out lod_t HY).
  - apply adopt_y_lod_empty_level, Hlevel.
  - intros E. rewrite E in Hlevel. discriminate.
Qed.

(** X3.  The checks of the flat list run in the order size, first offset,
    last offset, ascending, and the first that fails decides the message: a
    list of two or more offsets starting at 0 whose last offset is not the
    extent gets the message of the last offset even if it also descends, and
    the message of the ascending check is thrown only for lists that start
    at 0 and end at the extent. *)
Theorem X3_first_failing_check_decides ctx out l
    (Hl : flat_offsets ctx = Some l)
    (Hlen : (2 <= length l)%nat) (Hfirst : head l = Some 0) :
  (last l <> Some (dim0 (dims (Input_X ctx))) ->
   (Compute ctx out).1 = Threw (invalid_argument msg_target_last))
  /\ (last l = Some (dim0 (dims (Input_X ctx))) -> has_descent l ->
      (Compute ctx out).1 = Threw (invalid_argument msg_target_ascending))
  /\ ((Compute ctx out).1 = Threw (invalid_argument msg_target_ascending) ->
      last l = Some (dim0 (dims (Input_X ctx))) /\ has_descent l).
Proof.
  rewrite (Compute_flat_run ctx out l Hl). cbv zeta.
  destruct l as [|a [|b t]]; [cbn [length] in Hlen; lia.. |].
  injection Hfirst as ->. unfold flat_verdict.
  assert (Hex : exists e, last (0 :: b :: t) = Some e).
  { destruct (last (0 :: b :: t)) eqn:E; [eauto|].
    apply last_None in E. discriminate. }
  destruct Hex as [e He]. rewrite He. cbn [default from_option negb Z.eqb]. unfold id.
  destruct (Z.eqb_spec e (dim0 (dims (Input_X ctx)))) as [->|Hne]; cbn [negb].
  - destruct (ascendingb (0 :: b :: t)) eqn:Hasc; cbn [negb fst].
    + split; [congruence|]. split; [|discriminate].
      intros _ Hd. apply ascendingb_false_iff in Hd. congruence.
    + apply ascendingb_false_iff in Hasc. split; [congruence|].
      split; [reflexivity|]. intros _. split; [reflexivity | exact Hasc].
  - cbn [fst]. split; [reflexivity|]. split; [congruence|].
    intros H. inversion H.
Qed.

End KernelRuns.

Section KernelComposition.
Context {T : Type}.
Import LoDResetKernel.

Implicit Types (ctx : ExecutionContext T) (out s : DenseTensor T) (l : list Z).

Lemma appends_flat ctx l :
  flat_offsets ctx = Some l -> appends ctx = Attr_append ctx.
Proof. unfold appends. intros ->. reflexivity. Qed.

Lemma adopt_y_lod_no_level (in_ : DenseTensor T) (lod_t : DenseTensor Z) s :
  last (lod lod_t) = None -> adopt_y_lod in_ lod_t s = (Undefined, s).
Proof.
  intros Hlv. unfold adopt_y_lod. unfold bind at 1. unfold vec_at.
  rewrite Nat.sub_1_r, <- last_lookup, Hlv. reflexivity.
Qed.

Lemma adopt_y_lod_outcome (in_ in_' : DenseTensor T) (lod_t : DenseTensor Z) s s' :
  dim0 (dims in_) = dim0 (dims in_') ->
  (adopt_y_lod in_ lod_t s).1 = (adopt_y_lod in_' lod_t s').1.
Proof.
  intros Hd. destruct (last (lod lod_t)) as [lv|] eqn:Hlv.
  - destruct (last lv) as [b|] eqn:Hb.
    + rewrite !(adopt_y_lod_run _ _ _ lv b Hlv Hb), Hd.
      destruct (_ =? _); reflexivity.
    + apply last_None in Hb. subst lv.
      now rewrite !(adopt_y_lod_empty_level _ _ _ Hlv).
  - now rewrite !(adopt_y_lod_no_level _ _ _ Hlv).
Qed.

(** X4.  Compute copies the input into Out before it validates anything
    (line 47): after every run, whether it returns, throws or is undefined,
    the buffer, the shape and the place of Out are those of the input; and
    when the run does not return, the LoD of Out is what it was. *)
Theorem X4_copy_precedes_validation ctx out :
  data (Compute ctx out).2 = data (Input_X ctx)
  /\ dims (Compute ctx out).2 = dims (Input_X ctx)
  /\ place (Compute ctx out).2 = place (Input_X ctx)
  /\ ((Compute ctx out).1 <> Returned tt -> lod (Compute ctx out).2 = lod out).
Proof.
  destruct (Compute_cases ctx)
    as [(o & Ho & H) | [(L & _ & H) | (l & _ & _ & H)]]; rewrite (H out);
    cbn [fst snd]; repeat split; intros Hne; now destruct Hne.
Qed.

(** X5.  Unless it appends, Compute is idempotent: a second run on what the
    first run left in Out ends as the first did and leaves Out as it is. *)
Theorem X5_idempotent_without_append ctx out
    (Happ : appends ctx = false) :
  Compute ctx (Compute ctx out).2 = Compute ctx out.
Proof.
  destruct (Compute_cases ctx)
    as [(o & Ho & H) | [(L & _ & H) | (l & Ha & _ & H)]].
  - rewrite (H out). cbn [snd]. rewrite (H (copied ctx out)). reflexivity.
  - rewrite (H out). cbn [snd]. rewrite (H (set_lod L (copied ctx out))).
    reflexivity.
  - congruence.
Qed.

(** X6.  With the attribute "append" set, every run of Compute on an
    accepted flat list adds one more copy of the level (cast to size_t):
    after [n] runs the LoD of Out is the one it started with followed by [n]
    copies of the list. *)
Theorem X6_repeated_append ctx out l (n : nat)
    (Hl : flat_offsets ctx = Some l)
    (Happ : Attr_append ctx = true)
    (Hret : (Compute ctx out).1 = Returned tt) :
  lod (run_n ctx n out) = lod out ++ replicate n (map int_to_size_t l).
Proof.
  destruct (Compute_cases ctx)
    as [(o & Ho & H) | [(L & Ha & H) | (l' & _ & Hl' & H)]].
  - rewrite (H out) in Hret. now destruct Ho.
  - rewrite (appends_flat ctx l Hl) in Ha. congruence.
  - assert (l' = l) as -> by congruence. clear Hret.
    revert out. induction n as [|n IH]; intros out.
    + cbn [run_n replicate]. now rewrite app_nil_r.
    + cbn [run_n replicate]. rewrite IH, (H out). cbn [snd set_lod lod].
      now rewrite <- app_assoc.
Qed.

(** X7.  Whether Compute returns, and what it throws otherwise, depends only
    on Input(Y), the attribute target_lod and the extent of the first
    dimension of the input; the content of Out, the buffer and the LoD of the
    input and the attribute "append" play no part. *)
Theorem X7_outcome_ignores_out ctx ctx' out out'
    (HY : Input_Y ctx = Input_Y ctx')
    (Ht : Attr_target_lod ctx = Attr_target_lod ctx')
    (Hd : dim0 (dims (Input_X ctx)) = dim0 (dims (Input_X ctx'))) :
  (Compute ctx out).1 = (Compute ctx' out').1.
Proof.
  assert (Hf : flat_offsets ctx = flat_offsets ctx').
  { unfold flat_offsets. rewrite HY, Ht. reflexivity. }
  destruct (flat_offsets ctx) as [l|] eqn:Hl.
  - rewrite (Compute_flat_run ctx out l Hl).
    rewrite (Compute_flat_run ctx' out' l (eq_sym Hf)). cbv zeta. rewrite Hd.
    destruct (flat_verdict _ l); reflexivity.
  - destruct (flat_offsets_None ctx Hl) as (lod_t & HYs & Hne).
    rewrite (Compute_nested ctx out lod_t HYs Hne).
    rewrite HYs in HY.
    rewrite (Compute_nested ctx' out' lod_t (eq_sym HY) Hne).
    apply adopt_y_lod_outcome, Hd.
Qed.

(** X8.  Input(Y) takes precedence over the attributes.  When Input(Y) is
    present the attribute target_lod is not read; when it also carries a
    LoD, neither the attribute "append" nor the buffer, shape and place of
    Input(Y) are read. *)
Theorem X8_input_y_precedence ctx ctx' out (lod_t lod_t' : DenseTensor Z)
    (HX : Input_X ctx = Input_X ctx')
    (HY : Input_Y ctx = Some lod_t) (HY' : Input_Y ctx' = Some lod_t') :
  (lod_t = lod_t' -> Attr_append ctx = Attr_append ctx' ->
   Compute ctx out = Compute ctx' out)
  /\ (lod lod_t = lod lod_t' -> lod lod_t <> [] ->
      Compute ctx out = Compute ctx' out).
Proof.
  split.
  - intros <- Ha. unfold Compute. rewrite HX, HY, HY', Ha. reflexivity.
  - intros Hlod Hne.
    rewrite (Compute_nested ctx out lod_t HY Hne).
    rewrite (Compute_nested ctx' out lod_t' HY'); [|congruence].
    unfold adopt_y_lod. rewrite HX, Hlod. reflexivity.
Qed.

End KernelComposition.

Section AcceptedLists.
Context {T : Type}.
Import LoDResetKernel.

Implicit Types (ctx : ExecutionContext T) (out s : DenseTensor T) (l : list Z).

Lemma ascendingb_upper_bound l :
  forall e, ascendingb l = true -> last l = Some e -> Forall (fun x => x <= e) l.
Proof.
  induction l as [|x t IH]; intros e Hasc Hlast; [constructor|].
  destruct t as [|y t'].
  - injection Hlast as ->. repeat constructor. lia.
  - rewrite last_cons_cons in Hlast.
    cbn [ascendingb] in Hasc. apply andb_true_iff in Hasc as [Hge Hasc].
    rewrite Z.geb_leb in Hge. apply Z.leb_le in Hge.
    specialize (IH e Hasc Hlast). constructor; [|exact IH].
    apply Forall_cons in IH as [Hy _]. lia.
Qed.

Lemma accepted_ascending extent l :
  flat_verdict extent l = None -> ascendingb l = true.
Proof.
  intros Hv. apply flat_verdict_None in Hv as (_ & _ & _ & Hnd).
  destruct (ascendingb l) eqn:E; [reflexivity|].
  apply ascendingb_false_iff in E. now destruct Hnd.
Qed.

Lemma accepted_offsets_bounds extent l :
  flat_verdict extent l = None -> Forall (fun x => 0 <= x <= extent) l.
Proof.
  intros Hv. pose proof (accepted_ascending _ _ Hv) as Hasc.
  pose proof (accepted_offsets_nonneg _ _ Hv) as Hlo.
  apply flat_verdict_None in Hv as (_ & _ & Hlast & _).
  pose proof (ascendingb_upper_bound l extent Hasc Hlast) as Hhi.
  rewrite Forall_forall in Hlo, Hhi |- *. intros x Hx.
  split; [exact (Hlo x Hx) | exact (Hhi x Hx)].
Qed.

Lemma seq_lengths_nonneg l :
  ascendingb l = true -> Forall (fun n => 0 <= n) (seq_lengths l).
Proof.
  induction l as [|x t IH]; intros Hasc; [constructor|].
  destruct t as [|y t']; [constructor|].
  cbn [ascendingb] in Hasc. apply andb_true_iff in Hasc as [Hge Hasc].
  rewrite Z.geb_leb in Hge. apply Z.leb_le in Hge.
  cbn [seq_lengths]. constructor; [lia | exact (IH Hasc)].
Qed.

Lemma seq_lengths_sum l :
  forall a e, head l = Some a -> last l = Some e ->
    sum_list (seq_lengths l) = e - a.
Proof.
  induction l as [|x t IH]; intros a e Hhead Hlast; [discriminate|].
  injection Hhead as ->. destruct t as [|y t'].
  - injection Hlast as ->. cbn. lia.
  - rewrite last_cons_cons in Hlast.
    change (sum_list (seq_lengths (a :: y :: t')))
      with (y - a + sum_list (seq_lengths (y :: t'))).
    rewrite (IH y e eq_refl Hlast). lia.
Qed.

Lemma seq_lengths_length l : length (seq_lengths l) = (length l - 1)%nat.
Proof.
  induction l as [|x t IH]; [reflexivity|].
  destruct t as [|y t']; [reflexivity|].
  cbn [seq_lengths length] in *. lia.
Qed.

Lemma size_t_to_int64_exact (b d : Z) :
  0 <= b < 2 ^ 64 -> 0 <= d < 2 ^ 63 -> size_t_to_int64 b = d <-> b = d.
Proof.
  intros Hb Hd. unfold size_t_to_int64.
  destruct (Z_lt_le_dec b (2 ^ 63)) as [Hlt|Hge].
  - rewrite Z.mod_small by lia. lia.
  - replace (b + 2 ^ 63) with (b - 2 ^ 63 + 1 * 2 ^ 64) by lia.
    rewrite Z_mod_plus_full, Z.mod_small by lia. lia.
Qed.

(** X9.  A flat list that Compute accepts indexes the rows of the input:
    every offset lies between 0 and the extent of the first dimension, so the
    extent is not negative; and for an extent below 2^64 the cast to size_t
    changes no offset, the level stored on Out is the list itself. *)
Theorem X9_accepted_offsets_in_range ctx out l
    (Hl : flat_offsets ctx = Some l)
    (Hret : (Compute ctx out).1 = Returned tt) :
  let extent := dim0 (dims (Input_X ctx)) in
  0 <= extent
  /\ Forall (fun x => 0 <= x <= extent) l
  /\ (extent < 2 ^ 64 ->
      lod (Compute ctx out).2 = updated_lod (Attr_append ctx) (lod out) l).
Proof.
  intros extent. apply (returns_iff_no_verdict ctx out l Hl) in Hret.
  pose proof (accepted_offsets_bounds _ _ Hret) as Hb.
  assert (Hext : 0 <= extent).
  { apply flat_verdict_None in Hret as (_ & _ & Hlast & _).
    apply last_Some_elem_of in Hlast. rewrite Forall_forall in Hb.
    apply (Hb _ Hlast). }
  split; [exact Hext|]. split; [exact Hb|]. intros Hsmall.
  rewrite (Compute_flat_run ctx out l Hl). cbv zeta. rewrite Hret.
  cbn [snd set_lod lod]. f_equal.
  clear -Hb Hsmall. induction Hb as [|x t Hx _ IH]; [reflexivity|].
  cbn [map]. rewrite IH. f_equal. unfold int_to_size_t.
  apply Z.mod_small. fold extent in Hx. lia.
Qed.

(** X10.  For an input with no rows (extent 0) Compute accepts exactly the
    flat lists of two or more offsets that are all 0. *)
Theorem X10_empty_input ctx out l
    (Hl : flat_offsets ctx = Some l)
    (Hempty : dim0 (dims (Input_X ctx)) = 0) :
  (Compute ctx out).1 = Returned tt
  <-> (2 <= length l)%nat /\ Forall (fun x => x = 0) l.
Proof.
  rewrite (returns_iff_no_verdict ctx out l Hl), Hempty. split.
  - intros Hv. pose proof (accepted_offsets_bounds _ _ Hv) as Hb.
    apply flat_verdict_None in Hv as (Hlen & _). split; [exact Hlen|].
    eapply Forall_impl; [exact Hb|]. intros x Hx. cbn beta in Hx. lia.
  - intros [Hlen Hz]. rewrite Forall_forall in Hz.
    apply flat_verdict_None. split; [exact Hlen|]. repeat split.
    + destruct l as [|a t]; [cbn [length] in Hlen; lia|].
      cbn [head]. f_equal. apply Hz. left.
    + destruct (last l) as [e|] eqn:E.
      * f_equal. apply Hz. apply last_Some_elem_of, E.
      * apply last_None in E. subst l. cbn [length] in Hlen. lia.
    + intros (i & a & b & [Ha Hb] & Hlt).
      apply list_elem_of_lookup_2 in Ha, Hb.
      rewrite (Hz a Ha), (Hz b Hb) in Hlt. lia.
Qed.

(** X11.  A flat list that Compute accepts cuts the rows of the input into
    sequences: the differences of adjacent offsets, one fewer than the
    offsets, are not negative and add up to the extent of the first
    dimension. *)
Theorem X11_sequences_partition_rows ctx out l
    (Hl : flat_offsets ctx = Some l)
    (Hret : (Compute ctx out).1 = Returned tt) :
  length (seq_lengths l) = (length l - 1)%nat
  /\ Forall (fun n => 0 <= n) (seq_lengths l)
  /\ sum_list (seq_lengths l) = dim0 (dims (Input_X ctx)).
Proof.
  apply (returns_iff_no_verdict ctx out l Hl) in Hret.
  split; [apply seq_lengths_length|]. split.
  - apply seq_lengths_nonneg. eapply accepted_ascending, Hret.
  - apply flat_verdict_None in Hret as (_ & Hhead & Hlast & _).
    rewrite (seq_lengths_sum l 0 _ Hhead Hlast). lia.
Qed.

(** X12.  On the path of a LoD on Input(Y) the last value of the last level
    is cast from size_t to int64_t before the comparison; for an extent that
    is not negative the cast cannot make a different value pass: Compute
    returns exactly when that last value is the extent. *)
Theorem X12_nested_comparison_exact ctx out (lod_t : DenseTensor Z)
    (last_level : list Z) (b : Z)
    (HY : Input_Y ctx = Some lod_t)
    (Hlevel : last (lod lod_t) = Some last_level)
    (Hback : last last_level = Some b)
    (Hb : 0 <= b < 2 ^ 64)
    (Hd : 0 <= dim0 (dims (Input_X ctx)) < 2 ^ 63) :
  (Compute ctx out).1 = Returned tt <-> b = dim0 (dims (Input_X ctx)).
Proof.
  rewrite (Compute_nested ctx out lod_t HY).
  2: { intros E. rewrite E in Hlevel. discriminate. }
  rewrite (adopt_y_lod_run _ _ _ last_level b Hlevel Hback).
  rewrite <- (size_t_to_int64_exact b _ Hb Hd).
  destruct (Z.eqb_spec (size_t_to_int64 b) (dim0 (dims (Input_X ctx))));
    cbn [fst]; split; congruence.
Qed.

End AcceptedLists.

(** ** The further properties at concrete inputs *)

Section MoreInstances.
Import LoDResetKernel Fixtures MoreFixtures.

Lemma X1_witness_0325 :
  (Compute (ctx_attr [0; 3; 2; 5] false) out_one_level).1 = Returned tt
  \/ exists msg, msg ∈ flat_messages
       /\ (Compute (ctx_attr [0; 3; 2; 5] false) out_one_level).1
          = Threw (invalid_argument msg).
Proof.
  exact (X1_flat_path_is_memory_safe (ctx_attr [0; 3; 2; 5] false)
           out_one_level [0; 3; 2; 5] eq_refl).
Defined.

Lemma X2_witness_empty_level :
  Compute (ctx_y y_empty_level false) out_one_level
  = (Undefined,
     {| data := data x5; dims := dims x5; lod := [[0; 5]]; place := Host |}).
Proof.
  exact (X2_empty_last_level_is_undefined (ctx_y y_empty_level false)
           out_one_level y_empty_level eq_refl eq_refl).
Defined.

(** [0,3,2,4] descends and ends off the extent 5: the message is that of the
    last offset. *)
Lemma X3_witness_0324 :
  has_descent [0; 3; 2; 4]
  /\ (Compute (ctx_attr [0; 3; 2; 4] false) out_one_level).1
     = Threw (invalid_argument msg_target_last).
Proof.
  split.
  - exists 1%nat, 3, 2. repeat split; reflexivity.
  - assert (Hlen : (2 <= length [0; 3; 2; 4])%nat) by (cbn [length]; lia).
    apply (proj1 (X3_first_failing_check_decides
                    (ctx_attr [0; 3; 2; 4] false) out_one_level
                    [0; 3; 2; 4] eq_refl Hlen eq_refl)).
    intros H. discriminate H.
Defined.

Lemma X5_witness_replace :
  Compute (ctx_attr [0; 2; 5] false)
    (Compute (ctx_attr [0; 2; 5] false) out_one_level).2
  = Compute (ctx_attr [0; 2; 5] false) out_one_level.
Proof.
  exact (X5_idempotent_without_append (ctx_attr [0; 2; 5] false)
           out_one_level eq_refl).
Defined.

Lemma X6_witness_three_runs :
  lod (run_n (ctx_attr [0; 2; 5] true) 3 out_one_level)
  = [[0; 5]; [0; 2; 5]; [0; 2; 5]; [0; 2; 5]].
Proof.
  exact (X6_repeated_append (ctx_attr [0; 2; 5] true) out_one_level
           [0; 2; 5] 3 eq_refl eq_refl eq_refl).
Defined.

Lemma X7_witness_other_out :
  (Compute (ctx_attr [0; 2; 4] false) out_one_level).1
  = (Compute (ctx_attr [0; 2; 4] true) out_other).1.
Proof.
  exact (X7_outcome_ignores_out (ctx_attr [0; 2; 4] false)
           (ctx_attr [0; 2; 4] true) out_one_level out_other
           eq_refl eq_refl eq_refl).
Defined.

(** The LoD of y_nested on a tensor with another buffer, with "append" set
    and a target_lod given: the run is the same. *)
Lemma X8_witness_nested :
  Compute (ctx_y y_nested false) out_one_level
  = Compute
      {| Input_X := x5;
         Input_Y := Some {| data := [9; 9]; dims := dims x5;
                            lod := [[0; 2]; [4; 1; 5]];
                            place := Accelerator 0 |};
         Attr_append := true; Attr_target_lod := [0; 5] |}
      out_one_level.
Proof.
  assert (Hne : lod y_nested <> []) by (intros H; discriminate H).
  exact (proj2 (X8_input_y_precedence (ctx_y y_nested false) _ out_one_level
                  y_nested _ eq_refl eq_refl eq_refl) eq_refl Hne).
Defined.

Lemma X9_witness_025 :
  Forall (fun x => 0 <= x <= 5) [0; 2; 5]
  /\ lod (Compute (ctx_attr [0; 2; 5] false) out_one_level).2 = [[0; 2; 5]].
Proof.
  pose proof (X9_accepted_offsets_in_range (ctx_attr [0; 2; 5] false)
                out_one_level [0; 2; 5] eq_refl eq_refl) as (_ & Hb & Hlod).
  split; [exact Hb|]. apply Hlod. reflexivity.
Defined.

Lemma X10_witness_zeros :
  (Compute (ctx_x0 [0; 0; 0]) out_one_level).1 = Returned tt
  /\ (Compute (ctx_x0 [0; 1]) out_one_level).1 <> Returned tt.
Proof.
  split.
  - apply (X10_empty_input (ctx_x0 [0; 0; 0]) out_one_level [0; 0; 0]
             eq_refl eq_refl).
    split; [cbn [length]; lia | repeat constructor].
  - intros H.
    apply (X10_empty_input (ctx_x0 [0; 1]) out_one_level [0; 1]
             eq_refl eq_refl) in H as [_ Hz].
    apply Forall_cons in Hz as [_ Hz]. apply Forall_cons in Hz as [H1 _].
    discriminate H1.
Defined.

Lemma X11_witness_025 :
  seq_lengths [0; 2; 5] = [2; 3]
  /\ sum_list (seq_lengths [0; 2; 5]) = 5.
Proof.
  split; [reflexivity|].
  exact (proj2 (proj2 (X11_sequences_partition_rows
                         (ctx_attr [0; 2; 5] false) out_one_level [0; 2; 5]
                         eq_refl eq_refl))).
Defined.

Lemma X12_witness_nested :
  (Compute (ctx_y y_nested false) out_one_level).1 = Returned tt <-> 5 = 5.
Proof.
  assert (Hb : 0 <= 5 < 2 ^ 64) by lia.
  assert (Hd : 0 <= dim0 (dims (Input_X (ctx_y y_nested false))) < 2 ^ 63).
  { cbn. lia. }
  exact (X12_nested_comparison_exact (ctx_y y_nested false) out_one_level
           y_nested [4; 1; 5] 5 eq_refl eq_refl eq_refl Hb Hd).
Defined.

End MoreInstances.

Section OffsetRoutes.
Context {T : Type}.
Import LoDResetKernel.

(** X13.  The two routes of a flat offset list are interchangeable: a run
    with a LoD-less Input(Y), on the host or on the GPU, is the run without
    Input(Y) whose attribute target_lod holds the elements of the buffer of
    Input(Y). *)
Theorem X13_buffer_route_is_attribute_route (ctx : ExecutionContext T)
    (out : DenseTensor T) (lod_t : DenseTensor Z)
    (HY : Input_Y ctx = Some lod_t) (Hlod : lod lod_t = []) :
  Compute ctx out
  = Compute {| Input_X := Input_X ctx; Input_Y := None;
               Attr_append := Attr_append ctx;
               Attr_target_lod := data lod_t |} out.
Proof.
  assert (Hlevel0 : level0_of_y lod_t = data lod_t).
  { unfold level0_of_y, numel, TensorCopySync, TensorCopy.
    destruct (decide _); cbn [data]; apply firstn_all. }
  unfold Compute. rewrite HY, Hlod. cbn. rewrite Hlevel0. reflexivity.
Qed.

End OffsetRoutes.

Section RouteInstance.
Import LoDResetKernel Fixtures.

Lemma X13_witness_gpu_buffer :
  Compute (ctx_y (y_buffer [0; 2; 5]) true) out_one_level
  = Compute (ctx_attr [0; 2; 5] true) out_one_level.
Proof.
  exact (X13_buffer_route_is_attribute_route (ctx_y (y_buffer [0; 2; 5]) true)
           out_one_level (y_buffer [0; 2; 5]) eq_refl eq_refl).
Defined.

End RouteInstance.
